(** * Agent routing and tool dispatch: a shallow embedding

    The development follows the three Python modules of the repository:
    [agent_base.py] (the model caller), [graph.py] ([GraphState] and
    [SystemHelper]) and [agent.py] (the calculator tool, the two graph
    nodes and the compiled graph).

    Python state is explicit.  A [GraphState] dictionary is an object on
    a heap, addressed by a location, because [SystemHelper.invoke]
    assigns into the dictionary it is given and returns that same
    dictionary.  Lists are only ever built with [+], which makes a new
    list, so a list is a plain value.  Printing, reading a line and the
    calls to the two external collaborators (model and tools) are
    recorded in a trace. *)

From stdpp Require Import base option list gmap strings pretty.
(** ** Messages ([langchain_core.messages]) *)

(** Values found in the argument dictionary of a tool call. *)
Inductive Value :=
| VStr (s : string)
| VInt (n : Z).

(** A tool call as the model emits it: [{"name": .., "args": .., "id": ..}]. *)
Record ToolCall := mkToolCall {
  tc_name : string;
  tc_args : gmap string Value;
  tc_id : string
}.

Inductive Message :=
| SystemMessage (content : string)
| HumanMessage (content : string)
| AIMessage (content : string) (tool_calls : list ToolCall)
| ToolMessage (tool_call_id : string) (content : string).

(** [msg.content] *)
Definition content (m : Message) : string :=
  match m with
  | SystemMessage c | HumanMessage c | AIMessage c _ | ToolMessage _ c => c
  end.

(** [msg.tool_calls] when [hasattr(msg, 'tool_calls')]: only an
    [AIMessage] has the attribute. *)
Definition tool_calls_attr (m : Message) : option (list ToolCall) :=
  match m with
  | AIMessage _ tcs => Some tcs
  | _ => None
  end.

Definition is_assistant (m : Message) : bool :=
  match m with AIMessage _ _ => true | _ => false end.
Definition is_tool (m : Message) : bool :=
  match m with ToolMessage _ _ => true | _ => false end.

(** ** Exceptions *)

Inductive ExcClass :=
| NameError
| IndexError
| KeyError
| EOFError
| ValidationError
| GraphRecursionError
| OtherError (name : string).

Record Exception := mkExc { exc_class : ExcClass; exc_msg : string }.

(** [str(e)] *)
Definition str_exc (e : Exception) : string := exc_msg e.

(** [str(output)] for a tool's return value. *)
Definition str_value (v : Value) : string :=
  match v with
  | VStr s => s
  | VInt n => pretty n
  end.

(** ** The world: heap of state dictionaries, trace, pending input lines *)

Inductive Event :=
| EvPrint (line : string)
| EvInput (prompt : string) (line : string)
| EvModel (messages : list Message)
| EvTool (name : string) (args : gmap string Value).

Definition loc := nat.

Record World := mkWorld {
  heap : gmap loc (list Message);   (* dictionary object |-> its "messages" entry *)
  trace : list Event;
  stdin : list string
}.

Definition upd_heap (f : gmap loc (list Message) → gmap loc (list Message))
    (w : World) : World :=
  mkWorld (f (heap w)) (trace w) (stdin w).

Definition emit (ev : Event) (w : World) : World :=
  mkWorld (heap w) (trace w ++ [ev]) (stdin w).

(** ** A state-and-exception monad *)

Definition M (A : Type) : Type := World → (Exception + A) * World.

Definition ret {A} (a : A) : M A := fun w => (inr a, w).

Definition raise {A} (e : Exception) : M A := fun w => (inl e, w).

Definition bind {A B} (c : M A) (k : A → M B) : M B :=
  fun w =>
    match c w with
    | (inr a, w') => k a w'
    | (inl e, w') => (inl e, w')
    end.

(** [try: body  except Exception as e: handler e] *)
Definition try_except {A} (body : M A) (handler : Exception → M A) : M A :=
  fun w =>
    match body w with
    | (inr a, w') => (inr a, w')
    | (inl e, w') => handler e w'
    end.

Notation "'let!' x ':=' c 'in' k" := (bind c (fun x => k))
  (at level 10, x name, c at level 200, k at level 200,
   format "'[v' 'let!'  x  ':='  c  'in' '/' k ']'").

(** [print(line)] *)
Definition print (line : string) : M unit :=
  fun w => (inr tt, emit (EvPrint line) w).

(** [input(prompt)]: one line from the input source, [EOFError] when
    there is none. *)
Definition input (prompt : string) : M string :=
  fun w =>
    match stdin w with
    | line :: rest =>
        (inr line, mkWorld (heap w) (trace w ++ [EvInput prompt line]) rest)
    | [] => (inl (mkExc EOFError "EOF when reading a line"), w)
    end.

(** [{"messages": ms}]: a new dictionary object. *)
Definition new_dict (ms : list Message) : M loc :=
  fun w =>
    let l := fresh (dom (heap w)) in
    (inr l, upd_heap <[l := ms]> w).

(** [d["messages"]] *)
Definition getitem (d : loc) : M (list Message) :=
  fun w =>
    match heap w !! d with
    | Some ms => (inr ms, w)
    | None => (inl (mkExc KeyError "'messages'"), w)
    end.

(** [d["messages"] = ms] *)
Definition setitem (d : loc) (ms : list Message) : M unit :=
  fun w => (inr tt, upd_heap <[d := ms]> w).

(** [ms[-1]] *)
Definition index_last (ms : list Message) : M Message :=
  match last ms with
  | Some m => ret m
  | None => raise (mkExc IndexError "list index out of range")
  end.

(** ** [agent_base.py]: the prompt constants *)

Definition WORLD_GENERATOR_PROMPT : string := "
Role:
You are the World Generator. Your job is to create a complete, internally consistent fictional world that can serve as the permanent canon unless the user chooses to refine it.

Operating Instructions:
Accept either:
- A reference to an existing media universe, historical period, or current location/time.
- A freeform prompt for a new world.

Produce a fully realized world that can stand on its own as a factual state model, without relying on further edits.
Ensure the world is logically coherent and self-sufficient. Cover its essential foundations—such as geography, ecology, history, inhabitants, and socio-political societies, along with systems (physical, political, cultural, technological, spiritual, or otherwise)—expanding to any other domains necessary for a complete world state model.
Do not allow any single feature to overwhelm the entire world model unless explicitly instructed. Distinct features should coexist in balance, with prominence distributed across multiple domains rather than concentrated on one element.
If the user does not invoke refinement, treat your output as final canon.

Output Style:
Present the world in a structured, reference-style overview, organized for clarity and factual inquiry. Avoid improvisation or thematic interpretation; focus on verifiable, canonical details.
If the base is historical or real-world, stick to factual accuracy unless explicitly told otherwise.

Refinement Behaviors:
When the user requests adjustments to the relative importance of any feature within the world model, rebalance that feature instead of exaggerating or erasing it. Preserve its presence at the adjusted level of significance. Importance can be scaled globally or within specific domains (e.g., spiritual, political, ecological, cultural), according to the user’s instructions.

Behavior Modes:
- Hypothetical / “What If” Mode:
	- When the user frames a prompt as a “what if” scenario (e.g., “What if the floating islands sank?” or “What if the kingdom of X never existed?”), treat it as a temporary, hypothetical modification to the world state.
	- Preserve the integrity of the original world as canonical; do not overwrite or erase existing facts unless explicitly instructed.
	- Apply all world logic and systems consistently, exploring consequences proportionally to the change.	
	- Provide both:
		- A concise explanation of the immediate effects on relevant domains (geography, ecology, societies, systems, etc.).
		- Optional guidance or prompts for deeper exploration of affected areas.
".

Definition WORLD_LIBRARIAN_PROMPT : string := "
Role:
You are the World Librarian. You are the final custodian of a locked fictional world.

# Core Workflow
1. Initialization
- You will receive as context a world state model describing a fictional or reference world.
2. Query & Refinement
- Collaborate with the user to expand, test, and adjust the world.
  - The user leads the exploration, choosing where to expand, mutate, or query the world.
  - You may ask clarifying questions if an area is underspecified, potentially inconsistent, or holds rich opportunities for expansion.
  - You may offer optional elaborations or suggestions when they would strengthen coherence, highlight tension, or open creative directions — but the user decides whether to pursue them.
- The draft is only mutable through explicit commands.

# Commands & Rules
## Queries
- Any input without a slash command is a query.
- Queries ask: “What is true in the draft world right now?”
- Answer based only on the current draft state.
- If the information exists → return it.
- If it does not exist → respond with: “I do not know.”
  - If the user asks for extrapolation, generate a plausible and consistent answer, clearly marking it as Extrapolation (not canon) unless confirmed with a /set.
- Queries never alter the draft.

1. Direct Facts
- If the queried information already exists in the world state, report it exactly as it is.
- No extrapolation, no consequences, no creative additions — just the established fact.
- If the user's phrasing contradicts canon, respond with the correction.
2. Extrapolations (only when explicitly requested)
- If the queried fact does not exist:
  - Respond with “I do not know.”
- If the user follows up with an extrapolation request, then apply:
  - Consistency Check → ensure the extrapolation doesn't contradict existing canon.
  - Consequence Exploration → highlight ripple effects, tensions, or logical implications.
  - Neutral Defaults → avoid introducing flashy or elaborate details unless required for consistency.

## Mutations (/set)
- Inputs prefixed with /set are mutation requests.
- A mutation adds or changes facts in the draft world.
- Behavior:
  - If consistent with existing facts → accept and integrate.
  - If inconsistent → reject and explain why.
- Always confirm whether a mutation is accepted or rejected.

## Overrides (/force)
- Inputs prefixed with /force act like /set, but they override consistency checks.
- Use only when the user explicitly wants to correct contradictions or deliberately reshape the world.
- Always confirm that the override was applied.

## Finalization (/finish)
- When the user issues /finish, output the full world state in structured format.
- After this, no further mutations are allowed.

# Tone
- Be conversational and collaborative, like a co-writer helping to research an imaginative world.
- Offer clarifications and suggest refinements when inconsistencies are spotted.
- Treat canon as inflexible unless /set or /force is used.
".

(** ** The tool interface ([langchain_core.tools]) *)

(** A registered tool: its name and what [tool.invoke(args)] does.  A
    tool may print and then returns a value or raises. *)
Record Tool := mkTool {
  tool_name : string;
  tool_invoke : gmap string Value → list string * (Exception + Value)
}.

(** Run a tool: the call is recorded, its prints are emitted. *)
Definition run_tool (t : Tool) (args : gmap string Value) : M Value :=
  fun w =>
    let '(lines, r) := tool_invoke t args in
    let w1 := emit (EvTool (tool_name t) args) w in
    (r, mkWorld (heap w1) (trace w1 ++ (EvPrint <$> lines)) (stdin w1)).

(** ** [graph.py]: [SystemHelper] *)

Section SystemHelper.

(** [self._llm.call]: one chat completion, which answers with a
    message or raises. *)
Variable llm_call : list Message → Exception + Message.

(** [self._tool_registry] *)
Variable tool_registry : gmap string Tool.

Definition _call_agent (messages : list Message) : M Message :=
  fun w =>
    (llm_call messages, emit (EvModel messages) w).

Definition _call_tool (tool_name : string) (tool_args : gmap string Value)
    (call_id : string) : M (list Message) :=
  match tool_registry !! tool_name with
  | None =>
      raise (mkExc NameError
               ("⚠️ Tool " +:+ tool_name +:+ " not found in registry"))
  | Some t =>
      let! output := run_tool t tool_args in
      ret [ToolMessage call_id (str_value output)]
  end.

Definition invoke (state : loc) : M loc :=
  let! _ := try_except
    (let! messages := getitem state in
     let! response := _call_agent messages in
     let! messages := getitem state in
     setitem state (messages ++ [response]))
    (fun e =>
       let! _ := print ("❌ Agent invocation failed: " +:+ str_exc e) in
       let! messages := getitem state in
       setitem state (messages ++ [AIMessage (str_exc e) []])) in
  ret state.

Definition invoke_tool (state : loc) : M loc :=
  let! messages := getitem state in
  let! last_msg := index_last messages in
  match tool_calls_attr last_msg with
  | None | Some [] =>
      let! _ := print "⚠️ No tool calls in last message" in
      new_dict messages
  | Some (tool_call :: _) =>
      let name := tc_name tool_call in
      let args := tc_args tool_call in
      let call_id := tc_id tool_call in
      let! _ := try_except
        (let! response := _call_tool name args call_id in
         let! messages := getitem state in
         setitem state (messages ++ response))
        (fun e =>
           let! _ := print ("❌ Tool invocation failed: " +:+ str_exc e) in
           let! messages := getitem state in
           setitem state (messages ++ [AIMessage (str_exc e) []])) in
      ret state
  end.

End SystemHelper.

(** ** [agent.py]: the calculator tool and the registry *)

(** The body of [calculator]: it prints, logs (the root logger drops
    [info] records) and returns its argument. *)
Definition calculator (expression : string) : list string * string :=
  (["🧮 Evaluating expression: " +:+ expression], expression).

(** [@tool] turns the function into a tool named after it, whose
    [invoke] takes the argument dictionary and requires a string under
    the key [expression]. *)
Definition calculator_tool : Tool :=
  mkTool "calculator"
    (fun args =>
       match args !! "expression" with
       | Some (VStr expression) =>
           let '(lines, output) := calculator expression in
           (lines, inr (VStr output))
       | _ =>
           ([], inl (mkExc ValidationError
                       "1 validation error for calculator"))
       end).

Definition tools : list Tool := [calculator_tool].

(** [{tool.name: tool for tool in tools}] *)
Definition tool_registry : gmap string Tool :=
  list_to_map ((fun tool => (tool_name tool, tool)) <$> tools).

(** ** The graph runtime ([langgraph])

    [agent.py] builds [StateGraph(GraphState)], adds the two nodes, sets
    the entry point and runs the compiled graph.  What the runtime does
    with these is modelled here as far as the two nodes use it: every
    state key is a channel; a node is called with a dictionary made from
    the channel values; the [update] of the [Command] it returns is
    written to the channels and its [goto] selects the next node, [END]
    stopping the run; the run returns the channel values. *)

Inductive Node := agent | librarian_node.

Inductive Target :=
| To (n : Node)
| END.

(** [Command(update={"messages": ..}, goto=..)]; [update] is absent in
    [Command(goto=END)]. *)
Record Command := mkCommand {
  update : option (list Message);
  goto : Target
}.

(** How a state key takes a write.  The runtime aggregates writes with a
    binary operator (a reducer, starting from the empty list) only when
    the annotation of the key carries a callable; a key annotated with
    anything else keeps the last value written. *)
Inductive Channel :=
| LastValue
| BinaryOperatorAggregate (op : list Message → list Message → list Message).

Inductive Metadata :=
| MetaStr (s : string)
| MetaCallable (op : list Message → list Message → list Message).

Definition _get_channel (meta : Metadata) : Channel :=
  match meta with
  | MetaCallable op => BinaryOperatorAggregate op
  | MetaStr _ => LastValue
  end.

Definition channel_update (ch : Channel) (value write : list Message)
    : list Message :=
  match ch with
  | LastValue => write
  | BinaryOperatorAggregate op => op value write
  end.

(** [GraphState]: [messages: Annotated[List[AiMessage], "messages"]] *)
Definition GraphState_messages : Metadata := MetaStr "messages".

(** The default bound on the number of steps of one run. *)
Definition recursion_limit : nat := 25.

Definition apply_command (ch : Channel) (value : list Message)
    (cmd : Command) : list Message :=
  match update cmd with
  | Some write => channel_update ch value write
  | None => value
  end.

Section Graph.

Variable llm_call : list Message → Exception + Message.

(** [marshall = SystemHelper(llm, tools=tool_registry)] *)
Definition marshall_invoke : loc → M loc := invoke llm_call.

Definition generator (state : loc) : M Command :=
  let! state := marshall_invoke state in
  let! messages := getitem state in
  let! response := index_last messages in
  let! _ := print ("🤖 Generator response: " +:+ content response) in
  ret (mkCommand
         (Some [SystemMessage WORLD_LIBRARIAN_PROMPT; response])
         (To librarian_node)).

Definition librarian (state : loc) : M Command :=
  let! ask := input
    "What questions would you ask to test the consistency of the world rules? " in
  let! messages := getitem state in
  let! arg := new_dict (messages ++ [HumanMessage ask]) in
  let! result := marshall_invoke arg in
  let! messages := getitem result in
  let! response := index_last messages in
  let! _ := print ("🤖 Librarian response: " +:+ content response) in
  ret (mkCommand None END).

(** [builder.add_node("agent", generator)],
    [builder.add_node("librarian", librarian)] *)
Definition node_fn (n : Node) : loc → M Command :=
  match n with
  | agent => generator
  | librarian_node => librarian
  end.

(** One step of the router: the node runs on a dictionary made from the
    current channel value, its command's update is written to the
    channel and its [goto] names what runs next. *)
Definition router_step (ch : Channel) (n : Node) (value : list Message)
    : M (list Message * Target) :=
  let! state := new_dict value in
  let! cmd := node_fn n state in
  ret (apply_command ch value cmd, goto cmd).

Fixpoint router_loop (ch : Channel) (fuel : nat) (n : Node)
    (value : list Message) : M (list Message) :=
  match fuel with
  | 0 => raise (mkExc GraphRecursionError "Recursion limit reached")
  | S fuel' =>
      let! r := router_step ch n value in
      match r.2 with
      | END => ret r.1
      | To n' => router_loop ch fuel' n' r.1
      end
  end.

(** [graph.invoke(inputs)] with the channel [ch] for the messages key;
    the entry point is ["agent"]. *)
Definition graph_invoke_with (ch : Channel) (inputs : loc)
    : M (list Message) :=
  let! messages := getitem inputs in
  router_loop ch recursion_limit agent (channel_update ch [] messages).

(** [graph = builder.compile()] over [StateGraph(GraphState)]. *)
Definition graph_invoke : loc → M (list Message) :=
  graph_invoke_with (_get_channel GraphState_messages).

End Graph.

(** [inputs] of the main block. *)
Definition main_inputs : list Message :=
  [SystemMessage WORLD_GENERATOR_PROMPT;
   HumanMessage "Wheel of Time, pre-Breaking of the World era."].

(** ** Outcomes, for stating what the operations do *)

(** The message [invoke] appends for a given model outcome. *)
Definition appended (outcome : Exception + Message) : Message :=
  match outcome with
  | inr response => response
  | inl e => AIMessage (str_exc e) []
  end.

(** What [invoke] adds to the trace. *)
Definition invoke_trace (messages : list Message)
    (outcome : Exception + Message) : list Event :=
  match outcome with
  | inr _ => [EvModel messages]
  | inl e =>
      [EvModel messages;
       EvPrint ("❌ Agent invocation failed: " +:+ str_exc e)]
  end.

(** The messages [invoke_tool] appends for a given dispatch outcome. *)
Definition dispatched (outcome : Exception + list Message) : list Message :=
  match outcome with
  | inr response => response
  | inl e => [AIMessage (str_exc e) []]
  end.

(** What [invoke_tool] prints after the dispatch. *)
Definition dispatch_report (outcome : Exception + list Message) : list Event :=
  match outcome with
  | inr _ => []
  | inl e => [EvPrint ("❌ Tool invocation failed: " +:+ str_exc e)]
  end.

(** What the generator node adds to the trace. *)
Definition generator_trace (messages : list Message)
    (outcome : Exception + Message) : list Event :=
  invoke_trace messages outcome ++
  [EvPrint ("🤖 Generator response: " +:+ content (appended outcome))].

(** What the librarian node adds to the trace; [messages] is what it sends
    to the model. *)
Definition librarian_trace (ask : string) (messages : list Message)
    (outcome : Exception + Message) : list Event :=
  EvInput
    "What questions would you ask to test the consistency of the world rules? "
    ask
  :: invoke_trace messages outcome ++
     [EvPrint ("🤖 Librarian response: " +:+ content (appended outcome))].

(** Every dictionary of [w] is still there, unchanged, in [w']. *)
Definition preserves (w w' : World) : Prop :=
  ∀ d ms, heap w !! d = Some ms → heap w' !! d = Some ms.

(** What a run returns is a function of the seeded messages and of the
    first pending input line alone. *)
Definition run_result (llm_call : list Message → Exception + Message)
    (ch : Channel) (ms : list Message)
    (line : option string) : Exception + list Message :=
  match line with
  | Some _ =>
      let value := channel_update ch [] ms in
      inr (channel_update ch value
             [SystemMessage WORLD_LIBRARIAN_PROMPT;
              appended (llm_call value)])
  | None => inl (mkExc EOFError "EOF when reading a line")
  end.

(** The tool calls recorded in a trace. *)
Definition tool_events (tr : list Event) : list (string * gmap string Value) :=
  omap (fun ev => match ev with EvTool n a => Some (n, a) | _ => None end) tr.

(** [l1] is [l2] with messages added at the end. *)
Definition extends (l1 l2 : list Message) : Prop := l2 `prefix_of` l1.

(** ** Stubs used to exercise the statements on concrete runs *)

Definition stub_llm (ms : list Message) : Exception + Message :=
  inr (AIMessage "A city" []).

Definition failing_llm (ms : list Message) : Exception + Message :=
  inl (mkExc (OtherError "APIConnectionError") "Connection error.").

Definition seed : list Message :=
  [SystemMessage "You are a generator"; HumanMessage "Describe a city"].

Definition seed_world : World :=
  mkWorld {[ 0 := seed ]} [] ["What is the population?"].

Definition seed3 : list Message := seed ++ [HumanMessage "Make it a port"].

(** The contract of the model caller: a successful call answers with an
    assistant message. *)
Definition answers_as_assistant
    (llm_call : list Message → Exception + Message) : Prop :=
  ∀ ms r, llm_call ms = inr r → is_assistant r = true.

(** A tool whose implementation raises. *)
Definition failing_tool : Tool :=
  mkTool "divide"
    (fun _ => ([], inl (mkExc (OtherError "ZeroDivisionError")
                          "division by zero"))).

Definition failing_registry : gmap string Tool :=
  {[ "divide" := failing_tool ]}.

Definition divide_call : ToolCall := mkToolCall "divide" ∅ "c1".

Definition calculator_call : ToolCall :=
  mkToolCall "calculator" {[ "expression" := VStr "2+2" ]} "c1".

Definition unknown_call : ToolCall := mkToolCall "search" ∅ "c2".

(** A world whose dictionary [0] ends with an assistant message that
    requests the given tool calls. *)
Definition tool_world (calls : list ToolCall) : World :=
  mkWorld {[ 0 := seed ++ [AIMessage "" calls] ]} [] [].

Definition two_calls : list ToolCall := [calculator_call; unknown_call].

(** The message lists sent to the model, as recorded in a trace. *)
Definition model_events (tr : list Event) : list (list Message) :=
  omap (fun ev => match ev with EvModel ms => Some ms | _ => None end) tr.


(** A world with two dictionaries and one pending input line. *)
Definition two_dict_world : World :=
  mkWorld {[ 0 := seed; 1 := seed3 ]} [] ["line"].

(** A model that answers with a request for two tool calls. *)
Definition calling_llm (ms : list Message) : Exception + Message :=
  inr (AIMessage "" two_calls).

(** The operator of an appending channel, [operator.add] on lists. *)
Definition add (value write : list Message) : list Message := value ++ write.

(* ================================================================= *)
(** * Properties *)

(** ** The monad and the heap primitives *)

Lemma getitem_Some d ms w :
  heap w !! d = Some ms → getitem d w = (inr ms, w).
Proof. intros H. unfold getitem. by rewrite H. Qed.

Lemma index_last_snoc ms m w : index_last (ms ++ [m]) w = (inr m, w).
Proof. unfold index_last. by rewrite last_snoc. Qed.

Lemma new_dict_fresh ms w :
  new_dict ms w =
    (inr (fresh (dom (heap w))),
     upd_heap <[fresh (dom (heap w)) := ms]> w).
Proof. reflexivity. Qed.

Lemma fresh_not_allocated (w : World) d ms :
  heap w !! d = Some ms → fresh (dom (heap w)) ≠ d.
Proof.
  intros H Heq. apply (is_fresh (dom (heap w))).
  rewrite Heq. apply elem_of_dom. eauto.
Qed.

(** ** [SystemHelper.invoke] *)

Section SystemHelperFacts.

Variable llm_call : list Message → Exception + Message.
Variable registry : gmap string Tool.

(** [invoke] always returns the dictionary it was given, with exactly one
    message added to its list. *)
Lemma invoke_run state ms w :
  heap w !! state = Some ms →
  invoke llm_call state w =
    (inr state,
     mkWorld (<[state := ms ++ [appended (llm_call ms)]]> (heap w))
             (trace w ++ invoke_trace ms (llm_call ms))
             (stdin w)).
Proof.
  intros H. unfold invoke, bind, try_except, _call_agent, setitem, print, ret.
  rewrite (getitem_Some _ _ _ H).
  destruct (llm_call ms) as [e|r] eqn:E; simpl.
  - unfold getitem; simpl. rewrite H. simpl.
    unfold upd_heap, emit; simpl. by rewrite <- app_assoc.
  - unfold getitem; simpl. rewrite H. reflexivity.
Qed.

(** ** [SystemHelper._call_tool] *)

Lemma _call_tool_missing name args call_id w :
  registry !! name = None →
  _call_tool registry name args call_id w =
    (inl (mkExc NameError ("⚠️ Tool " +:+ name +:+ " not found in registry")),
     w).
Proof. intros H. unfold _call_tool. by rewrite H. Qed.

Lemma _call_tool_found name t args call_id w :
  registry !! name = Some t →
  _call_tool registry name args call_id w =
    (match (tool_invoke t args).2 with
     | inr output => inr [ToolMessage call_id (str_value output)]
     | inl e => inl e
     end,
     mkWorld (heap w)
             (trace w ++ EvTool (tool_name t) args
                         :: (EvPrint <$> (tool_invoke t args).1))
             (stdin w)).
Proof.
  intros H. unfold _call_tool, bind, run_tool, ret. rewrite H.
  destruct (tool_invoke t args) as [lines [e|output]]; simpl;
    by rewrite <- app_assoc.
Qed.

(** Dispatch touches neither the heap nor the pending input. *)
Lemma _call_tool_frame name args call_id w :
  heap (_call_tool registry name args call_id w).2 = heap w ∧
  stdin (_call_tool registry name args call_id w).2 = stdin w.
Proof.
  destruct (registry !! name) as [t|] eqn:E.
  - by rewrite (_call_tool_found _ _ _ _ _ E).
  - by rewrite (_call_tool_missing _ _ _ _ E).
Qed.

(** Dispatch reaches at most one tool implementation, the one registered
    under the requested name, and none when the name is unknown. *)
Lemma _call_tool_events name args call_id w :
  tool_events (trace (_call_tool registry name args call_id w).2) =
    tool_events (trace w) ++
    match registry !! name with
    | Some t => [(tool_name t, args)]
    | None => []
    end.
Proof.
  destruct (registry !! name) as [t|] eqn:E.
  - rewrite (_call_tool_found _ _ _ _ _ E). simpl.
    unfold tool_events. rewrite omap_app. simpl. f_equal. f_equal.
    induction (tool_invoke t args).1; simpl; auto.
  - rewrite (_call_tool_missing _ _ _ _ E). simpl. by rewrite app_nil_r.
Qed.

(** ** [SystemHelper.invoke_tool] *)

Lemma invoke_tool_dispatch state ms last_msg tool_call rest w :
  heap w !! state = Some ms →
  last ms = Some last_msg →
  tool_calls_attr last_msg = Some (tool_call :: rest) →
  let r := _call_tool registry (tc_name tool_call) (tc_args tool_call)
             (tc_id tool_call) w in
  invoke_tool registry state w =
    (inr state,
     mkWorld (<[state := ms ++ dispatched r.1]> (heap w))
             (trace r.2 ++ dispatch_report r.1)
             (stdin w)).
Proof.
  intros H Hl Ht r. unfold invoke_tool, bind.
  rewrite (getitem_Some _ _ _ H). unfold index_last. rewrite Hl. simpl.
  rewrite Ht. unfold try_except, bind. fold r.
  destruct (_call_tool_frame (tc_name tool_call) (tc_args tool_call)
              (tc_id tool_call) w) as [Hh Hs].
  fold r in Hh, Hs.
  destruct r as [[e|response] w1]; simpl in *.
  - unfold print, getitem, setitem, emit, upd_heap, ret; simpl.
    rewrite Hh, H, Hs. reflexivity.
  - unfold getitem, setitem, upd_heap, ret; simpl.
    rewrite Hh, H, Hs. simpl. by rewrite Hh, app_nil_r.
Qed.

Lemma invoke_tool_skip state ms last_msg w :
  heap w !! state = Some ms →
  last ms = Some last_msg →
  tool_calls_attr last_msg = None ∨ tool_calls_attr last_msg = Some [] →
  invoke_tool registry state w =
    (inr (fresh (dom (heap w))),
     mkWorld (<[fresh (dom (heap w)) := ms]> (heap w))
             (trace w ++ [EvPrint "⚠️ No tool calls in last message"])
             (stdin w)).
Proof.
  intros H Hl Ht. unfold invoke_tool, bind.
  rewrite (getitem_Some _ _ _ H). unfold index_last. rewrite Hl. simpl.
  destruct Ht as [-> | ->]; reflexivity.
Qed.

Lemma invoke_tool_empty state w :
  heap w !! state = Some [] →
  invoke_tool registry state w =
    (inl (mkExc IndexError "list index out of range"), w).
Proof.
  intros H. unfold invoke_tool, bind.
  by rewrite (getitem_Some _ _ _ H).
Qed.

End SystemHelperFacts.

(** ** The nodes of [agent.py] *)

Lemma preserves_refl w : preserves w w.
Proof. by intros d ms H. Qed.

Lemma preserves_trans w1 w2 w3 :
  preserves w1 w2 → preserves w2 w3 → preserves w1 w3.
Proof. intros H12 H23 d ms H. by apply H23, H12. Qed.

Lemma preserves_fresh (w : World) ms tr inp :
  preserves w (mkWorld (<[fresh (dom (heap w)) := ms]> (heap w)) tr inp).
Proof.
  intros d ms' H. simpl.
  rewrite lookup_insert_ne; [done|]. by eapply fresh_not_allocated.
Qed.

Section GraphFacts.

Variable llm_call : list Message → Exception + Message.

Lemma generator_run state ms w :
  heap w !! state = Some ms →
  generator llm_call state w =
    (inr (mkCommand
            (Some [SystemMessage WORLD_LIBRARIAN_PROMPT;
                   appended (llm_call ms)])
            (To librarian_node)),
     mkWorld (<[state := ms ++ [appended (llm_call ms)]]> (heap w))
             (trace w ++ generator_trace ms (llm_call ms))
             (stdin w)).
Proof.
  intros H. unfold generator, marshall_invoke, bind.
  rewrite (invoke_run _ _ _ _ H).
  unfold getitem. simpl. rewrite lookup_insert_eq.
  rewrite index_last_snoc. unfold print, emit, ret, generator_trace. simpl.
  by rewrite <- app_assoc.
Qed.

Lemma librarian_run state ms ask rest w :
  heap w !! state = Some ms →
  stdin w = ask :: rest →
  let sent := ms ++ [HumanMessage ask] in
  librarian llm_call state w =
    (inr (mkCommand None END),
     mkWorld (<[fresh (dom (heap w)) := sent ++ [appended (llm_call sent)]]>
                (heap w))
             (trace w ++ librarian_trace ask sent (llm_call sent))
             rest).
Proof.
  intros H Hin sent. unfold librarian, marshall_invoke, bind, input.
  rewrite Hin. unfold getitem at 1. simpl. rewrite H.
  erewrite invoke_run by (simpl; apply lookup_insert_eq).
  unfold getitem. simpl. rewrite lookup_insert_eq.
  rewrite index_last_snoc. unfold print, emit, ret, librarian_trace. simpl.
  rewrite insert_insert_eq. fold sent.
  rewrite <- !app_assoc. reflexivity.
Qed.

Lemma librarian_eof state w :
  stdin w = [] →
  librarian llm_call state w =
    (inl (mkExc EOFError "EOF when reading a line"), w).
Proof. intros H. unfold librarian, bind, input. by rewrite H. Qed.

(** ** The router *)

(** The step of the entry node, for any channel. *)
Lemma router_step_agent ch value w :
  let a := appended (llm_call value) in
  router_step llm_call ch agent value w =
    (inr (channel_update ch value [SystemMessage WORLD_LIBRARIAN_PROMPT; a],
          To librarian_node),
     mkWorld (<[fresh (dom (heap w)) := value ++ [a]]> (heap w))
             (trace w ++ generator_trace value (llm_call value))
             (stdin w)).
Proof.
  intros a. unfold router_step, bind. rewrite new_dict_fresh.
  cbn [node_fn].
  erewrite generator_run by (simpl; apply lookup_insert_eq).
  unfold ret, apply_command. simpl. by rewrite insert_insert_eq.
Qed.

(** The step of the librarian node, for any channel: the channel value is
    what it was. *)
Lemma router_step_librarian ch value ask rest w :
  stdin w = ask :: rest →
  ∃ w',
    router_step llm_call ch librarian_node value w = (inr (value, END), w') ∧
    preserves w w' ∧
    stdin w' = rest ∧
    trace w' =
      trace w ++
      librarian_trace ask (value ++ [HumanMessage ask])
        (llm_call (value ++ [HumanMessage ask])).
Proof.
  intros Hin. unfold router_step, bind. rewrite new_dict_fresh.
  cbn [node_fn].
  erewrite librarian_run
    by (simpl; first [apply lookup_insert_eq | exact Hin]).
  eexists. split; [reflexivity|]. simpl. split; [|done].
  apply (preserves_trans w
           (mkWorld (<[fresh (dom (heap w)) := value]> (heap w))
                    (trace w) (stdin w))).
  - apply preserves_fresh.
  - apply (preserves_fresh (mkWorld _ _ _)).
Qed.

(** A whole run, for any channel: two steps, well inside the step bound;
    the result is the channel value after the generator's write. *)
Lemma graph_invoke_with_run ch inputs ms ask rest w :
  heap w !! inputs = Some ms →
  stdin w = ask :: rest →
  ∃ w',
    graph_invoke_with llm_call ch inputs w =
      (run_result llm_call ch ms (Some ask), w') ∧
    preserves w w' ∧
    stdin w' = rest.
Proof.
  intros H Hin. unfold graph_invoke_with, bind.
  rewrite (getitem_Some _ _ _ H).
  unfold recursion_limit. cbn [router_loop]. unfold bind.
  rewrite router_step_agent. cbn [fst snd].
  set (v := channel_update ch (channel_update ch [] ms) _).
  set (w1 := mkWorld _ _ _).
  destruct (router_step_librarian ch v ask rest w1 Hin)
    as (w' & -> & Hp & Hs & _).
  exists w'. split; [reflexivity|]. split; [|done].
  eapply preserves_trans; [|exact Hp]. apply preserves_fresh.
Qed.

(** Without a line to read, the run ends in the librarian's [EOFError]. *)
Lemma graph_invoke_with_eof ch inputs ms w :
  heap w !! inputs = Some ms →
  stdin w = [] →
  ∃ w',
    graph_invoke_with llm_call ch inputs w =
      (inl (mkExc EOFError "EOF when reading a line"), w') ∧
    preserves w w'.
Proof.
  intros H Hin. unfold graph_invoke_with, bind.
  rewrite (getitem_Some _ _ _ H).
  unfold recursion_limit. cbn [router_loop]. unfold bind.
  rewrite router_step_agent. cbn [fst snd].
  unfold router_step, bind. rewrite new_dict_fresh. cbn [node_fn].
  rewrite librarian_eof by exact Hin.
  eexists. split; [reflexivity|].
  eapply preserves_trans; [apply preserves_fresh|].
  apply (preserves_fresh (mkWorld _ _ _)).
Qed.

Lemma graph_invoke_with_result ch inputs ms w :
  heap w !! inputs = Some ms →
  (graph_invoke_with llm_call ch inputs w).1 =
    run_result llm_call ch ms (head (stdin w)) ∧
  preserves w (graph_invoke_with llm_call ch inputs w).2.
Proof.
  intros H. destruct (stdin w) as [|ask rest] eqn:Hin.
  - destruct (graph_invoke_with_eof ch inputs ms w H Hin) as (w' & -> & Hp).
    by split.
  - destruct (graph_invoke_with_run ch inputs ms ask rest w H Hin)
      as (w' & -> & Hp & _).
    by split.
Qed.

End GraphFacts.

(* ================================================================= *)
(** * The generator step *)

(** Had the messages key an appending reducer, the generator step would
    add its two messages to the conversation. *)
Lemma generator_step_appending llm_call value w :
  ∃ a w',
    router_step llm_call (BinaryOperatorAggregate add) agent value w =
      (inr (value ++ [SystemMessage WORLD_LIBRARIAN_PROMPT; a],
            To librarian_node), w') ∧
    length (value ++ [SystemMessage WORLD_LIBRARIAN_PROMPT; a]) =
      length value + 2.
Proof.
  eexists _, _. rewrite router_step_agent. split; [reflexivity|].
  by rewrite length_app.
Qed.

(** C1, as stated, fails: seeded with one System and one Human message,
    the generator step leaves a conversation of length 2, not 4. *)
Lemma generator_step_length_counterexample :
  (router_step stub_llm (_get_channel GraphState_messages) agent seed
     seed_world).1 =
    inr ([SystemMessage WORLD_LIBRARIAN_PROMPT; AIMessage "A city" []],
         To librarian_node) ∧
  length seed = 2 ∧
  length [SystemMessage WORLD_LIBRARIAN_PROMPT; AIMessage "A city" []] ≠ 4.
Proof.
  rewrite router_step_agent. split; [reflexivity|].
  split; [reflexivity|]. simpl. discriminate.
Qed.

(** C1, amended: for a run seeded with one System and one Human message,
    the generator's directive carries the delta [new System message,
    Assistant response] and [goto = librarian]; the node's own dictionary
    grows from 2 to 3 messages; the messages key has no reducer, so the
    router replaces the conversation by the delta, whose length is 2. *)
Theorem generator_step_seeded llm_call s h w :
  answers_as_assistant llm_call →
  ∃ a w',
    is_assistant a = true ∧
    (∀ state, heap w !! state = Some [SystemMessage s; HumanMessage h] →
       (generator llm_call state w).1 =
         inr (mkCommand (Some [SystemMessage WORLD_LIBRARIAN_PROMPT; a])
                        (To librarian_node)) ∧
       heap (generator llm_call state w).2 !! state =
         Some [SystemMessage s; HumanMessage h; a]) ∧
    router_step llm_call (_get_channel GraphState_messages) agent
      [SystemMessage s; HumanMessage h] w =
      (inr ([SystemMessage WORLD_LIBRARIAN_PROMPT; a], To librarian_node),
       w') ∧
    length [SystemMessage WORLD_LIBRARIAN_PROMPT; a] = 2.
Proof.
  intros Hllm.
  exists (appended (llm_call [SystemMessage s; HumanMessage h])).
  eexists. split; [|split; [|split]].
  - destruct (llm_call _) as [e|r] eqn:E; simpl; [done|]. by eapply Hllm.
  - intros state H. rewrite (generator_run _ _ _ _ H). simpl.
    split; [reflexivity|]. apply lookup_insert_eq.
  - rewrite router_step_agent. reflexivity.
  - reflexivity.
Qed.

Lemma generator_step_seeded_witness :
  answers_as_assistant stub_llm ∧
  ∃ a w',
    is_assistant a = true ∧
    (∀ state,
       heap seed_world !! state =
         Some [SystemMessage "You are a generator";
               HumanMessage "Describe a city"] →
       (generator stub_llm state seed_world).1 =
         inr (mkCommand (Some [SystemMessage WORLD_LIBRARIAN_PROMPT; a])
                        (To librarian_node)) ∧
       heap (generator stub_llm state seed_world).2 !! state =
         Some [SystemMessage "You are a generator";
               HumanMessage "Describe a city"; a]) ∧
    router_step stub_llm (_get_channel GraphState_messages) agent
      [SystemMessage "You are a generator"; HumanMessage "Describe a city"]
      seed_world =
      (inr ([SystemMessage WORLD_LIBRARIAN_PROMPT; a], To librarian_node),
       w') ∧
    length [SystemMessage WORLD_LIBRARIAN_PROMPT; a] = 2.
Proof.
  assert (Hllm : answers_as_assistant stub_llm).
  { intros ms r H. injection H as <-. reflexivity. }
  split; [exact Hllm|].
  apply (generator_step_seeded stub_llm "You are a generator"
           "Describe a city" seed_world Hllm).
Defined.

(* ================================================================= *)
(** * Growth of the conversation *)

Lemma dispatched_length registry name args call_id w :
  length (dispatched (_call_tool registry name args call_id w).1) = 1.
Proof.
  destruct (registry !! name) as [t|] eqn:E.
  - rewrite (_call_tool_found _ _ _ _ _ _ E). simpl.
    by destruct (tool_invoke t args).2.
  - by rewrite (_call_tool_missing _ _ _ _ _ E).
Qed.

(** C2, as stated, fails: on a conversation of three messages the
    generator step leaves two, and a seeded message is gone. *)
Lemma generator_step_shrinks_counterexample :
  let value' :=
    [SystemMessage WORLD_LIBRARIAN_PROMPT; AIMessage "A city" []] in
  (router_step stub_llm (_get_channel GraphState_messages) agent seed3
     seed_world).1 = inr (value', To librarian_node) ∧
  length seed3 = 3 ∧
  length value' = 2 ∧
  HumanMessage "Describe a city" ∈ seed3 ∧
  HumanMessage "Describe a city" ∉ value'.
Proof.
  intros value'. rewrite router_step_agent. split; [reflexivity|].
  split; [reflexivity|]. split; [reflexivity|]. split.
  - unfold seed3, seed. set_solver.
  - unfold value'. intros H.
    apply elem_of_cons in H as [H|H]; [discriminate|].
    apply elem_of_cons in H as [H|H]; [discriminate|].
    by apply elem_of_nil in H.
Qed.

(** C2, amended: [invoke] extends the message list of the dictionary it is
    given by exactly one message and [invoke_tool], on a non-empty list,
    by at most one, existing messages staying in place; in the router the
    librarian step leaves the conversation as it is, and the generator
    step replaces it by its two-message delta. *)
Theorem conversation_growth llm_call registry state ms w :
  heap w !! state = Some ms →
  (∃ m, (invoke llm_call state w).1 = inr state ∧
        heap (invoke llm_call state w).2 !! state = Some (ms ++ [m])) ∧
  (ms ≠ [] →
   ∃ d added,
     (invoke_tool registry state w).1 = inr d ∧
     heap (invoke_tool registry state w).2 !! d = Some (ms ++ added) ∧
     length added ≤ 1) ∧
  (∀ ch ask rest,
     stdin w = ask :: rest →
     (router_step llm_call ch librarian_node ms w).1 = inr (ms, END)) ∧
  (∃ a,
     (router_step llm_call (_get_channel GraphState_messages) agent ms w).1 =
       inr ([SystemMessage WORLD_LIBRARIAN_PROMPT; a], To librarian_node)).
Proof.
  intros H. split; [|split; [|split]].
  - eexists. rewrite (invoke_run _ _ _ _ H). simpl.
    split; [reflexivity|]. apply lookup_insert_eq.
  - intros Hne.
    destruct (last ms) as [last_msg|] eqn:Hl;
      [|by apply last_None in Hl].
    destruct (tool_calls_attr last_msg) as [[|tool_call rest]|] eqn:Ht.
    + exists (fresh (dom (heap w))), [].
      rewrite (invoke_tool_skip _ _ _ _ _ H Hl) by auto. simpl.
      split; [reflexivity|]. rewrite app_nil_r.
      split; [apply lookup_insert_eq | lia].
    + eexists state, _.
      rewrite (invoke_tool_dispatch _ _ _ _ _ _ _ H Hl Ht). simpl.
      split; [reflexivity|]. split; [apply lookup_insert_eq|].
      by rewrite dispatched_length.
    + exists (fresh (dom (heap w))), [].
      rewrite (invoke_tool_skip _ _ _ _ _ H Hl) by auto. simpl.
      split; [reflexivity|]. rewrite app_nil_r.
      split; [apply lookup_insert_eq | lia].
  - intros ch ask rest Hin.
    destruct (router_step_librarian llm_call ch ms ask rest w Hin)
      as (w' & -> & _). reflexivity.
  - eexists. rewrite router_step_agent. reflexivity.
Qed.

Lemma conversation_growth_witness :
  heap seed_world !! 0 = Some seed ∧
  (∃ m, (invoke stub_llm 0 seed_world).1 = inr 0 ∧
        heap (invoke stub_llm 0 seed_world).2 !! 0 = Some (seed ++ [m])) ∧
  (seed ≠ [] →
   ∃ d added,
     (invoke_tool tool_registry 0 seed_world).1 = inr d ∧
     heap (invoke_tool tool_registry 0 seed_world).2 !! d =
       Some (seed ++ added) ∧
     length added ≤ 1) ∧
  (∀ ch ask rest,
     stdin seed_world = ask :: rest →
     (router_step stub_llm ch librarian_node seed seed_world).1 =
       inr (seed, END)) ∧
  (∃ a,
     (router_step stub_llm (_get_channel GraphState_messages) agent seed
        seed_world).1 =
       inr ([SystemMessage WORLD_LIBRARIAN_PROMPT; a], To librarian_node)).
Proof.
  split; [reflexivity|].
  apply (conversation_growth stub_llm tool_registry 0 seed seed_world).
  reflexivity.
Defined.

(* ================================================================= *)
(** * The librarian step *)

(** C3, as stated, fails: after the librarian step on the input
    "What is the population?" the conversation is the one before the
    step; it holds no new Human message. *)
Lemma librarian_step_counterexample :
  stdin seed_world = ["What is the population?"] ∧
  (router_step stub_llm (_get_channel GraphState_messages) librarian_node
     seed seed_world).1 = inr (seed, END) ∧
  (HumanMessage "What is the population?" ∉ seed) ∧
  (graph_invoke stub_llm 0 seed_world).1 =
    inr [SystemMessage WORLD_LIBRARIAN_PROMPT; AIMessage "A city" []].
Proof.
  split; [reflexivity|]. split; [reflexivity|].
  split; [|reflexivity].
  unfold seed. intros H.
  apply elem_of_cons in H as [H|H]; [discriminate|].
  apply elem_of_cons in H as [H|H]; [discriminate|].
  by apply elem_of_nil in H.
Qed.

(** C3, amended: the librarian reads one input, sends the conversation
    followed by that input as a Human message to the model, and the
    dictionary it built for the call ends with that Human message
    followed by one Assistant message; its directive is [goto = END]
    with no update, so the dictionary it was given and the router's
    conversation stay as they were. *)
Theorem librarian_step llm_call state ms ask rest w :
  answers_as_assistant llm_call →
  heap w !! state = Some ms →
  stdin w = ask :: rest →
  ∃ a w',
    is_assistant a = true ∧
    librarian llm_call state w = (inr (mkCommand None END), w') ∧
    heap w' !! fresh (dom (heap w)) = Some (ms ++ [HumanMessage ask; a]) ∧
    EvModel (ms ++ [HumanMessage ask]) ∈ trace w' ∧
    heap w' !! state = Some ms ∧
    (∀ ch, apply_command ch ms (mkCommand None END) = ms) ∧
    (∀ ch, (router_step llm_call ch librarian_node ms w).1 = inr (ms, END)).
Proof.
  intros Hllm H Hin.
  exists (appended (llm_call (ms ++ [HumanMessage ask]))).
  eexists. split; [|split; [|split; [|split; [|split; [|split]]]]].
  - destruct (llm_call _) as [e|r] eqn:E; simpl; [done|]. by eapply Hllm.
  - by rewrite (librarian_run _ _ _ _ _ _ H Hin).
  - simpl. rewrite lookup_insert_eq. by rewrite <- app_assoc.
  - simpl. unfold librarian_trace, invoke_trace.
    destruct (llm_call _); set_solver.
  - simpl. rewrite lookup_insert_ne; [done|].
    by eapply fresh_not_allocated.
  - reflexivity.
  - intros ch.
    destruct (router_step_librarian llm_call ch ms ask rest w Hin)
      as (w' & -> & _). reflexivity.
Qed.

Lemma librarian_step_witness :
  answers_as_assistant stub_llm ∧
  heap seed_world !! 0 = Some seed ∧
  stdin seed_world = ["What is the population?"] ∧
  ∃ a w',
    is_assistant a = true ∧
    librarian stub_llm 0 seed_world = (inr (mkCommand None END), w') ∧
    heap w' !! fresh (dom (heap seed_world)) =
      Some (seed ++ [HumanMessage "What is the population?"; a]) ∧
    EvModel (seed ++ [HumanMessage "What is the population?"]) ∈ trace w' ∧
    heap w' !! 0 = Some seed ∧
    (∀ ch, apply_command ch seed (mkCommand None END) = seed) ∧
    (∀ ch, (router_step stub_llm ch librarian_node seed seed_world).1 =
             inr (seed, END)).
Proof.
  assert (Hllm : answers_as_assistant stub_llm).
  { intros ms r H. injection H as <-. reflexivity. }
  split; [exact Hllm|]. split; [reflexivity|]. split; [reflexivity|].
  apply (librarian_step stub_llm 0 seed "What is the population?" []
           seed_world Hllm); reflexivity.
Defined.

(* ================================================================= *)
(** * Tool dispatch *)

(** C4, as stated, fails: a registered tool that raises makes
    [_call_tool] raise as well, and what [invoke_tool] appends for it is
    an Assistant message, not a Tool message. *)
Lemma tool_failure_counterexample :
  failing_registry !! tc_name divide_call = Some failing_tool ∧
  (_call_tool failing_registry (tc_name divide_call) (tc_args divide_call)
     (tc_id divide_call) (tool_world [divide_call])).1 =
    inl (mkExc (OtherError "ZeroDivisionError") "division by zero") ∧
  (invoke_tool failing_registry 0 (tool_world [divide_call])).1 = inr 0 ∧
  heap (invoke_tool failing_registry 0 (tool_world [divide_call])).2 !! 0 =
    Some (seed ++ [AIMessage "" [divide_call];
                   AIMessage "division by zero" []]) ∧
  is_tool (AIMessage "division by zero" []) = false.
Proof. repeat split; reflexivity. Qed.

(** C4, amended: when the first requested tool is registered and its
    implementation raises [e], [invoke_tool] does not raise; it returns
    the dictionary with one Assistant message of content [str(e)]
    appended. *)
Theorem tool_failure_degrades registry state ms last_msg tool_call rest t e w :
  heap w !! state = Some ms →
  last ms = Some last_msg →
  tool_calls_attr last_msg = Some (tool_call :: rest) →
  registry !! tc_name tool_call = Some t →
  (tool_invoke t (tc_args tool_call)).2 = inl e →
  (invoke_tool registry state w).1 = inr state ∧
  heap (invoke_tool registry state w).2 !! state =
    Some (ms ++ [AIMessage (str_exc e) []]).
Proof.
  intros H Hl Ht Hreg Hfail.
  rewrite (invoke_tool_dispatch _ _ _ _ _ _ _ H Hl Ht).
  rewrite (_call_tool_found _ _ _ _ _ _ Hreg), Hfail. simpl.
  split; [reflexivity|]. apply lookup_insert_eq.
Qed.

Lemma tool_failure_degrades_witness :
  heap (tool_world [divide_call]) !! 0 =
    Some (seed ++ [AIMessage "" [divide_call]]) ∧
  last (seed ++ [AIMessage "" [divide_call]]) =
    Some (AIMessage "" [divide_call]) ∧
  tool_calls_attr (AIMessage "" [divide_call]) = Some [divide_call] ∧
  failing_registry !! tc_name divide_call = Some failing_tool ∧
  (tool_invoke failing_tool (tc_args divide_call)).2 =
    inl (mkExc (OtherError "ZeroDivisionError") "division by zero") ∧
  (invoke_tool failing_registry 0 (tool_world [divide_call])).1 = inr 0 ∧
  heap (invoke_tool failing_registry 0 (tool_world [divide_call])).2 !! 0 =
    Some ((seed ++ [AIMessage "" [divide_call]]) ++
          [AIMessage "division by zero" []]).
Proof.
  do 5 (split; [reflexivity|]).
  apply (tool_failure_degrades failing_registry 0
           (seed ++ [AIMessage "" [divide_call]])
           (AIMessage "" [divide_call]) divide_call [] failing_tool
           (mkExc (OtherError "ZeroDivisionError") "division by zero")
           (tool_world [divide_call])); reflexivity.
Defined.

(** C6: a tool call whose name is not in the registry makes [_call_tool]
    raise [NameError] with the not-found message, the world untouched (no
    tool implementation runs); [invoke_tool] does not raise, it appends
    one message with that diagnostic and records no tool call. *)
Theorem unregistered_tool_dispatch registry state ms last_msg tool_call rest w :
  heap w !! state = Some ms →
  last ms = Some last_msg →
  tool_calls_attr last_msg = Some (tool_call :: rest) →
  registry !! tc_name tool_call = None →
  let diagnostic :=
    "⚠️ Tool " +:+ tc_name tool_call +:+ " not found in registry" in
  _call_tool registry (tc_name tool_call) (tc_args tool_call)
    (tc_id tool_call) w = (inl (mkExc NameError diagnostic), w) ∧
  (invoke_tool registry state w).1 = inr state ∧
  heap (invoke_tool registry state w).2 !! state =
    Some (ms ++ [AIMessage diagnostic []]) ∧
  tool_events (trace (invoke_tool registry state w).2) =
    tool_events (trace w).
Proof.
  intros H Hl Ht Hreg diagnostic.
  split; [by apply _call_tool_missing|].
  rewrite (invoke_tool_dispatch _ _ _ _ _ _ _ H Hl Ht).
  rewrite (_call_tool_missing _ _ _ _ _ Hreg). simpl.
  split; [reflexivity|]. split; [apply lookup_insert_eq|].
  unfold tool_events. rewrite omap_app. simpl. by rewrite app_nil_r.
Qed.

Lemma unregistered_tool_dispatch_witness :
  heap (tool_world [unknown_call]) !! 0 =
    Some (seed ++ [AIMessage "" [unknown_call]]) ∧
  last (seed ++ [AIMessage "" [unknown_call]]) =
    Some (AIMessage "" [unknown_call]) ∧
  tool_calls_attr (AIMessage "" [unknown_call]) = Some [unknown_call] ∧
  tool_registry !! tc_name unknown_call = None ∧
  _call_tool tool_registry (tc_name unknown_call) (tc_args unknown_call)
    (tc_id unknown_call) (tool_world [unknown_call]) =
    (inl (mkExc NameError "⚠️ Tool search not found in registry"),
     tool_world [unknown_call]) ∧
  (invoke_tool tool_registry 0 (tool_world [unknown_call])).1 = inr 0 ∧
  heap (invoke_tool tool_registry 0 (tool_world [unknown_call])).2 !! 0 =
    Some ((seed ++ [AIMessage "" [unknown_call]]) ++
          [AIMessage "⚠️ Tool search not found in registry" []]) ∧
  tool_events (trace (invoke_tool tool_registry 0
                        (tool_world [unknown_call])).2) =
    tool_events (trace (tool_world [unknown_call])).
Proof.
  do 4 (split; [reflexivity|]).
  apply (unregistered_tool_dispatch tool_registry 0
           (seed ++ [AIMessage "" [unknown_call]])
           (AIMessage "" [unknown_call]) unknown_call []
           (tool_world [unknown_call])); reflexivity.
Defined.

(** C7: a dispatch that succeeds answers with exactly one message, a Tool
    message whose call identifier is the identifier of the call; this is
    the message [invoke_tool] appends for the first requested call. *)
Theorem tool_message_call_id registry name args call_id response w :
  (_call_tool registry name args call_id w).1 = inr response →
  (∃ c, response = [ToolMessage call_id c]) ∧
  (∀ state ms last_msg rest,
     heap w !! state = Some ms →
     last ms = Some last_msg →
     tool_calls_attr last_msg = Some (mkToolCall name args call_id :: rest) →
     ∃ c, heap (invoke_tool registry state w).2 !! state =
            Some (ms ++ [ToolMessage call_id c])).
Proof.
  intros Hok.
  assert (∃ c, response = [ToolMessage call_id c]) as [c ->].
  { destruct (registry !! name) as [t|] eqn:E.
    - rewrite (_call_tool_found _ _ _ _ _ _ E) in Hok. simpl in Hok.
      destruct (tool_invoke t args).2; [discriminate|].
      injection Hok as <-. eauto.
    - by rewrite (_call_tool_missing _ _ _ _ _ E) in Hok. }
  split; [eauto|].
  intros state ms last_msg rest H Hl Ht. exists c.
  rewrite (invoke_tool_dispatch _ _ _ _ _ _ _ H Hl Ht). simpl.
  rewrite Hok. simpl. apply lookup_insert_eq.
Qed.

Lemma tool_message_call_id_witness :
  (_call_tool tool_registry "calculator" {[ "expression" := VStr "2+2" ]}
     "c1" (tool_world [calculator_call])).1 = inr [ToolMessage "c1" "2+2"] ∧
  (∃ c, [ToolMessage "c1" "2+2"] = [ToolMessage "c1" c]) ∧
  (∀ state ms last_msg rest,
     heap (tool_world [calculator_call]) !! state = Some ms →
     last ms = Some last_msg →
     tool_calls_attr last_msg =
       Some (mkToolCall "calculator" {[ "expression" := VStr "2+2" ]} "c1"
             :: rest) →
     ∃ c, heap (invoke_tool tool_registry state
                  (tool_world [calculator_call])).2 !! state =
            Some (ms ++ [ToolMessage "c1" c])).
Proof.
  split; [reflexivity|].
  apply (tool_message_call_id tool_registry "calculator"
           {[ "expression" := VStr "2+2" ]} "c1" [ToolMessage "c1" "2+2"]
           (tool_world [calculator_call])).
  reflexivity.
Defined.

(** C8: when the last message is an Assistant message with one or more
    tool calls, [invoke_tool] dispatches the first one and only that one:
    what it appends is the outcome of that single dispatch and the only
    tool that may run is the one registered under that call's name; when
    the last message carries no tool call the step raises nothing and
    answers with a dictionary holding the same messages, the given
    dictionary untouched. *)
Theorem invoke_tool_single_dispatch registry state ms last_msg w :
  heap w !! state = Some ms →
  last ms = Some last_msg →
  (∀ tool_call rest,
     tool_calls_attr last_msg = Some (tool_call :: rest) →
     let r := _call_tool registry (tc_name tool_call) (tc_args tool_call)
                (tc_id tool_call) w in
     (invoke_tool registry state w).1 = inr state ∧
     heap (invoke_tool registry state w).2 !! state =
       Some (ms ++ dispatched r.1) ∧
     tool_events (trace (invoke_tool registry state w).2) =
       tool_events (trace w) ++
       match registry !! tc_name tool_call with
       | Some t => [(tool_name t, tc_args tool_call)]
       | None => []
       end) ∧
  (tool_calls_attr last_msg = Some [] ∨ tool_calls_attr last_msg = None →
   ∃ d,
     (invoke_tool registry state w).1 = inr d ∧
     heap (invoke_tool registry state w).2 !! d = Some ms ∧
     heap (invoke_tool registry state w).2 !! state = Some ms ∧
     tool_events (trace (invoke_tool registry state w).2) =
       tool_events (trace w)).
Proof.
  intros H Hl. split.
  - intros tool_call rest Ht r.
    rewrite (invoke_tool_dispatch _ _ _ _ _ _ _ H Hl Ht). fold r. simpl.
    split; [reflexivity|]. split; [apply lookup_insert_eq|].
    unfold tool_events at 1. rewrite omap_app.
    fold (tool_events (trace r.2)). unfold r at 1.
    rewrite _call_tool_events. fold r.
    destruct r.1; simpl; by rewrite app_nil_r.
  - intros Ht. exists (fresh (dom (heap w))).
    rewrite (invoke_tool_skip _ _ _ _ _ H Hl) by tauto. simpl.
    split; [reflexivity|]. split; [apply lookup_insert_eq|]. split.
    + rewrite lookup_insert_ne; [done|]. by eapply fresh_not_allocated.
    + unfold tool_events. rewrite omap_app. simpl. by rewrite app_nil_r.
Qed.

Lemma invoke_tool_single_dispatch_witness :
  heap (tool_world two_calls) !! 0 = Some (seed ++ [AIMessage "" two_calls]) ∧
  last (seed ++ [AIMessage "" two_calls]) = Some (AIMessage "" two_calls) ∧
  (∀ tool_call rest,
     tool_calls_attr (AIMessage "" two_calls) = Some (tool_call :: rest) →
     let r := _call_tool tool_registry (tc_name tool_call)
                (tc_args tool_call) (tc_id tool_call)
                (tool_world two_calls) in
     (invoke_tool tool_registry 0 (tool_world two_calls)).1 = inr 0 ∧
     heap (invoke_tool tool_registry 0 (tool_world two_calls)).2 !! 0 =
       Some ((seed ++ [AIMessage "" two_calls]) ++ dispatched r.1) ∧
     tool_events (trace (invoke_tool tool_registry 0
                           (tool_world two_calls)).2) =
       tool_events (trace (tool_world two_calls)) ++
       match tool_registry !! tc_name tool_call with
       | Some t => [(tool_name t, tc_args tool_call)]
       | None => []
       end) ∧
  (tool_calls_attr (AIMessage "" two_calls) = Some [] ∨
   tool_calls_attr (AIMessage "" two_calls) = None →
   ∃ d,
     (invoke_tool tool_registry 0 (tool_world two_calls)).1 = inr d ∧
     heap (invoke_tool tool_registry 0 (tool_world two_calls)).2 !! d =
       Some (seed ++ [AIMessage "" two_calls]) ∧
     heap (invoke_tool tool_registry 0 (tool_world two_calls)).2 !! 0 =
       Some (seed ++ [AIMessage "" two_calls]) ∧
     tool_events (trace (invoke_tool tool_registry 0
                           (tool_world two_calls)).2) =
       tool_events (trace (tool_world two_calls))).
Proof.
  split; [reflexivity|]. split; [reflexivity|].
  apply (invoke_tool_single_dispatch tool_registry 0
           (seed ++ [AIMessage "" two_calls]) (AIMessage "" two_calls)
           (tool_world two_calls)); reflexivity.
Defined.

(** With two calls requested, the calculator call runs and the second
    call leaves no mark. *)
Example invoke_tool_two_calls :
  heap (invoke_tool tool_registry 0 (tool_world two_calls)).2 !! 0 =
    Some (seed ++ [AIMessage "" two_calls; ToolMessage "c1" "2+2"]) ∧
  tool_events (trace (invoke_tool tool_registry 0 (tool_world two_calls)).2) =
    [("calculator", {[ "expression" := VStr "2+2" ]})].
Proof. split; reflexivity. Qed.

(* ================================================================= *)
(** * Failure of the model caller *)




(* ================================================================= *)
(** * Determinism of a run *)

(** C9: with the model caller a function of the messages it is sent, two
    runs seeded with the same messages and given the same input line
    return the same result, whatever else the two worlds hold; a run does
    not touch the dictionary it was seeded with, so running again on it
    with the same input line returns the same result again. *)
Theorem graph_invoke_deterministic llm_call inputs1 inputs2 ms w1 w2 :
  heap w1 !! inputs1 = Some ms →
  heap w2 !! inputs2 = Some ms →
  head (stdin w1) = head (stdin w2) →
  (graph_invoke llm_call inputs1 w1).1 = (graph_invoke llm_call inputs2 w2).1 ∧
  heap (graph_invoke llm_call inputs1 w1).2 !! inputs1 = Some ms ∧
  (let after := (graph_invoke llm_call inputs1 w1).2 in
   (graph_invoke llm_call inputs1
      (mkWorld (heap after) (trace after) (stdin w1))).1 =
     (graph_invoke llm_call inputs1 w1).1).
Proof.
  intros H1 H2 Hin. unfold graph_invoke.
  destruct (graph_invoke_with_result llm_call
              (_get_channel GraphState_messages) inputs1 ms w1 H1)
    as [R1 P1].
  destruct (graph_invoke_with_result llm_call
              (_get_channel GraphState_messages) inputs2 ms w2 H2)
    as [R2 _].
  split; [by rewrite R1, R2, Hin|]. split; [by apply P1|].
  cbv zeta.
  match goal with
  | |- (graph_invoke_with _ _ _ ?w).1 = _ =>
      destruct (graph_invoke_with_result llm_call
                  (_get_channel GraphState_messages) inputs1 ms w)
        as [R3 _]; [by apply P1|]
  end.
  by rewrite R3, R1.
Qed.

Lemma graph_invoke_deterministic_witness :
  heap seed_world !! 0 = Some seed ∧
  heap (mkWorld {[ 7 := seed; 0 := seed3 ]} [EvPrint "earlier"]
          ["What is the population?"; "And the climate?"]) !! 7 =
    Some seed ∧
  (graph_invoke stub_llm 0 seed_world).1 =
    (graph_invoke stub_llm 7
       (mkWorld {[ 7 := seed; 0 := seed3 ]} [EvPrint "earlier"]
          ["What is the population?"; "And the climate?"])).1 ∧
  heap (graph_invoke stub_llm 0 seed_world).2 !! 0 = Some seed ∧
  (let after := (graph_invoke stub_llm 0 seed_world).2 in
   (graph_invoke stub_llm 0
      (mkWorld (heap after) (trace after) (stdin seed_world))).1 =
     (graph_invoke stub_llm 0 seed_world).1).
Proof.
  split; [reflexivity|]. split; [reflexivity|].
  apply (graph_invoke_deterministic stub_llm 0 7 seed seed_world
           (mkWorld {[ 7 := seed; 0 := seed3 ]} [EvPrint "earlier"]
              ["What is the population?"; "And the climate?"]));
    reflexivity.
Defined.

(** The run on the seeded world ends normally, well within the bound on
    steps, with the generator's delta as the final conversation. *)
Example graph_invoke_seed :
  (graph_invoke stub_llm 0 seed_world).1 =
    inr [SystemMessage WORLD_LIBRARIAN_PROMPT; AIMessage "A city" []].
Proof. reflexivity. Qed.

(* ================================================================= *)
(** * The calculator *)

(** C10: the calculator returns its expression as it is; dispatching a
    calculator call gives one Tool message whose content is the
    expression of the call. *)
Theorem calculator_echo expression args call_id w :
  (calculator expression).2 = expression ∧
  tool_registry !! "calculator" = Some calculator_tool ∧
  (_call_tool tool_registry "calculator"
     (<["expression" := VStr expression]> args) call_id w).1 =
    inr [ToolMessage call_id expression].
Proof.
  split; [reflexivity|]. split; [reflexivity|].
  erewrite _call_tool_found by reflexivity. simpl.
  by rewrite lookup_insert_eq.
Qed.

Example calculator_two_plus_two w :
  (_call_tool tool_registry "calculator" {[ "expression" := VStr "2+2" ]}
     "c1" w).1 = inr [ToolMessage "c1" "2+2"].
Proof. reflexivity. Qed.

(* ================================================================= *)
(** * Further properties of [SystemHelper] *)

Lemma tool_events_app tr1 tr2 :
  tool_events (tr1 ++ tr2) = tool_events tr1 ++ tool_events tr2.
Proof. apply omap_app. Qed.

Lemma model_events_app tr1 tr2 :
  model_events (tr1 ++ tr2) = model_events tr1 ++ model_events tr2.
Proof. apply omap_app. Qed.

Lemma invoke_trace_events ms outcome :
  model_events (invoke_trace ms outcome) = [ms] ∧
  tool_events (invoke_trace ms outcome) = [].
Proof. by destruct outcome. Qed.

Lemma generator_trace_events ms outcome :
  model_events (generator_trace ms outcome) = [ms] ∧
  tool_events (generator_trace ms outcome) = [].
Proof. by destruct outcome. Qed.

Lemma librarian_trace_events ask ms outcome :
  model_events (librarian_trace ask ms outcome) = [ms] ∧
  tool_events (librarian_trace ask ms outcome) = [].
Proof. by destruct outcome. Qed.

Lemma _call_tool_model_events registry name args call_id w :
  model_events (trace (_call_tool registry name args call_id w).2) =
    model_events (trace w).
Proof.
  destruct (registry !! name) as [t|] eqn:E.
  - rewrite (_call_tool_found _ _ _ _ _ _ E). simpl.
    rewrite model_events_app. simpl.
    replace (model_events (EvPrint <$> (tool_invoke t args).1)) with
      (@nil (list Message)); [by rewrite app_nil_r|].
    induction (tool_invoke t args).1; simpl; auto.
  - by rewrite (_call_tool_missing _ _ _ _ _ E).
Qed.

(** X1: on an empty message list [invoke_tool] raises [IndexError] from
    [messages[-1]], before its [try], and changes nothing, while
    [invoke] accepts the empty list and appends the model's answer. *)
Theorem invoke_tool_empty_conversation llm_call registry state w :
  heap w !! state = Some [] →
  invoke_tool registry state w =
    (inl (mkExc IndexError "list index out of range"), w) ∧
  (invoke llm_call state w).1 = inr state ∧
  heap (invoke llm_call state w).2 !! state = Some [appended (llm_call [])].
Proof.
  intros H. split; [|split].
  - unfold invoke_tool, bind. by rewrite (getitem_Some _ _ _ H).
  - by rewrite (invoke_run _ _ _ _ H).
  - rewrite (invoke_run _ _ _ _ H). simpl. apply lookup_insert_eq.
Qed.

Lemma invoke_tool_empty_conversation_witness :
  heap (mkWorld {[ 0 := [] ]} [] []) !! 0 = Some [] ∧
  invoke_tool tool_registry 0 (mkWorld {[ 0 := [] ]} [] []) =
    (inl (mkExc IndexError "list index out of range"),
     mkWorld {[ 0 := [] ]} [] []) ∧
  (invoke stub_llm 0 (mkWorld {[ 0 := [] ]} [] [])).1 = inr 0 ∧
  heap (invoke stub_llm 0 (mkWorld {[ 0 := [] ]} [] [])).2 !! 0 =
    Some [appended (stub_llm [])].
Proof.
  split; [reflexivity|].
  apply (invoke_tool_empty_conversation stub_llm tool_registry 0
           (mkWorld {[ 0 := [] ]} [] [])).
  reflexivity.
Defined.

(** X2: on a dictionary without the messages key [invoke] is not
    degraded: the [KeyError] is caught, the failure line is printed, and
    the handler's own read of the key raises [KeyError] again; the model
    is not called and no dictionary changes. *)
Theorem invoke_missing_key llm_call state w :
  heap w !! state = None →
  invoke llm_call state w =
    (inl (mkExc KeyError "'messages'"),
     mkWorld (heap w)
             (trace w ++ [EvPrint "❌ Agent invocation failed: 'messages'"])
             (stdin w)).
Proof.
  intros H.
  unfold invoke, bind, try_except, getitem, print, emit. simpl.
  rewrite H. simpl. by rewrite H.
Qed.

Lemma invoke_missing_key_witness :
  heap seed_world !! 5 = None ∧
  invoke stub_llm 5 seed_world =
    (inl (mkExc KeyError "'messages'"),
     mkWorld (heap seed_world)
             (trace seed_world ++
              [EvPrint "❌ Agent invocation failed: 'messages'"])
             (stdin seed_world)).
Proof.
  split; [reflexivity|].
  apply (invoke_missing_key stub_llm 5 seed_world). reflexivity.
Defined.

(** X3: [invoke] calls the model exactly once, with the messages of the
    dictionary it is given; it runs no tool, reads no input and leaves
    every other dictionary as it was. *)
Theorem invoke_frame llm_call state ms w :
  heap w !! state = Some ms →
  model_events (trace (invoke llm_call state w).2) =
    model_events (trace w) ++ [ms] ∧
  tool_events (trace (invoke llm_call state w).2) = tool_events (trace w) ∧
  stdin (invoke llm_call state w).2 = stdin w ∧
  (∀ d, d ≠ state →
     heap (invoke llm_call state w).2 !! d = heap w !! d).
Proof.
  intros H. rewrite (invoke_run _ _ _ _ H). simpl.
  destruct (invoke_trace_events ms (llm_call ms)) as [Hm Ht].
  rewrite model_events_app, tool_events_app, Hm, Ht, app_nil_r.
  repeat split. intros d Hd. by rewrite lookup_insert_ne.
Qed.

Lemma invoke_frame_witness :
  heap two_dict_world !! 0 = Some seed ∧
  model_events (trace (invoke failing_llm 0 two_dict_world).2) =
    model_events (trace two_dict_world) ++ [seed] ∧
  tool_events (trace (invoke failing_llm 0 two_dict_world).2) =
    tool_events (trace two_dict_world) ∧
  stdin (invoke failing_llm 0 two_dict_world).2 = stdin two_dict_world ∧
  (∀ d, d ≠ 0 →
     heap (invoke failing_llm 0 two_dict_world).2 !! d =
       heap two_dict_world !! d).
Proof.
  split; [reflexivity|].
  apply (invoke_frame failing_llm 0 seed two_dict_world).
  reflexivity.
Defined.

(** X4: whatever the world and the dictionary, [invoke_tool] never calls
    the model and reads no input, and every dictionary other than the one
    it is given stays as it was. *)
Theorem invoke_tool_frame registry state w :
  model_events (trace (invoke_tool registry state w).2) =
    model_events (trace w) ∧
  stdin (invoke_tool registry state w).2 = stdin w ∧
  (∀ d ms, d ≠ state → heap w !! d = Some ms →
     heap (invoke_tool registry state w).2 !! d = Some ms).
Proof.
  destruct (heap w !! state) as [ms|] eqn:H.
  - destruct (last ms) as [last_msg|] eqn:Hl.
    + destruct (tool_calls_attr last_msg) as [[|tool_call rest]|] eqn:Ht.
      * rewrite (invoke_tool_skip _ _ _ _ _ H Hl) by auto. simpl.
        rewrite model_events_app. simpl. rewrite app_nil_r.
        repeat split. intros d ms' _ Hd.
        rewrite lookup_insert_ne; [done|]. by eapply fresh_not_allocated.
      * rewrite (invoke_tool_dispatch _ _ _ _ _ _ _ H Hl Ht). simpl.
        rewrite model_events_app, _call_tool_model_events.
        replace (model_events (dispatch_report _)) with
          (@nil (list Message)); [|by destruct (_call_tool _ _ _ _ _).1].
        rewrite app_nil_r. repeat split. intros d ms' Hd Hms.
        by rewrite lookup_insert_ne.
      * rewrite (invoke_tool_skip _ _ _ _ _ H Hl) by auto. simpl.
        rewrite model_events_app. simpl. rewrite app_nil_r.
        repeat split. intros d ms' _ Hd.
        rewrite lookup_insert_ne; [done|]. by eapply fresh_not_allocated.
    + apply last_None in Hl as ->.
      unfold invoke_tool, bind. rewrite (getitem_Some _ _ _ H). simpl.
      by repeat split.
  - unfold invoke_tool, bind, getitem. rewrite H. simpl. by repeat split.
Qed.

Lemma invoke_tool_frame_witness :
  model_events (trace (invoke_tool tool_registry 0 (tool_world two_calls)).2) =
    model_events (trace (tool_world two_calls)) ∧
  stdin (invoke_tool tool_registry 0 (tool_world two_calls)).2 =
    stdin (tool_world two_calls) ∧
  (∀ d ms, d ≠ 0 → heap (tool_world two_calls) !! d = Some ms →
     heap (invoke_tool tool_registry 0 (tool_world two_calls)).2 !! d =
       Some ms).
Proof. apply (invoke_tool_frame tool_registry 0 (tool_world two_calls)). Defined.

(** X5: what [invoke_tool] returns is the dictionary it was given when it
    dispatches, and a new dictionary when it skips; after a skip, an
    [invoke] on the returned dictionary extends that one only, the given
    dictionary keeping its messages. *)
Theorem invoke_tool_result_identity llm_call registry state ms last_msg w :
  heap w !! state = Some ms →
  last ms = Some last_msg →
  (∀ tool_call rest,
     tool_calls_attr last_msg = Some (tool_call :: rest) →
     (invoke_tool registry state w).1 = inr state) ∧
  (tool_calls_attr last_msg = Some [] ∨ tool_calls_attr last_msg = None →
   ∃ d,
     (invoke_tool registry state w).1 = inr d ∧
     d ≠ state ∧
     heap w !! d = None ∧
     heap (invoke llm_call d (invoke_tool registry state w).2).2 !! d =
       Some (ms ++ [appended (llm_call ms)]) ∧
     heap (invoke llm_call d (invoke_tool registry state w).2).2 !! state =
       Some ms).
Proof.
  intros H Hl. split.
  - intros tool_call rest Ht.
    by rewrite (invoke_tool_dispatch _ _ _ _ _ _ _ H Hl Ht).
  - intros Ht. exists (fresh (dom (heap w))).
    assert (Hne : fresh (dom (heap w)) ≠ state)
      by (by eapply fresh_not_allocated).
    rewrite (invoke_tool_skip _ _ _ _ _ H Hl) by tauto. simpl.
    split; [reflexivity|]. split; [exact Hne|]. split.
    { apply not_elem_of_dom. apply is_fresh. }
    erewrite invoke_run by (simpl; apply lookup_insert_eq). simpl.
    split; [apply lookup_insert_eq|].
    by rewrite !lookup_insert_ne.
Qed.

Lemma invoke_tool_result_identity_witness :
  heap seed_world !! 0 = Some seed ∧
  last seed = Some (HumanMessage "Describe a city") ∧
  (∀ tool_call rest,
     tool_calls_attr (HumanMessage "Describe a city") =
       Some (tool_call :: rest) →
     (invoke_tool tool_registry 0 seed_world).1 = inr 0) ∧
  (tool_calls_attr (HumanMessage "Describe a city") = Some [] ∨
   tool_calls_attr (HumanMessage "Describe a city") = None →
   ∃ d,
     (invoke_tool tool_registry 0 seed_world).1 = inr d ∧
     d ≠ 0 ∧
     heap seed_world !! d = None ∧
     heap (invoke stub_llm d (invoke_tool tool_registry 0 seed_world).2).2
       !! d = Some (seed ++ [appended (stub_llm seed)]) ∧
     heap (invoke stub_llm d (invoke_tool tool_registry 0 seed_world).2).2
       !! 0 = Some seed).
Proof.
  split; [reflexivity|]. split; [reflexivity|].
  apply (invoke_tool_result_identity stub_llm tool_registry 0 seed
           (HumanMessage "Describe a city") seed_world); reflexivity.
Defined.

(** X6: [invoke] followed by [invoke_tool] on the same dictionary: when
    the model answers with tool calls, the first names a registered tool
    and that tool returns, the dictionary gains the Assistant message and
    right after it one Tool message with the identifier of that first
    call and [str] of the tool's output. *)
Theorem invoke_then_invoke_tool
    llm_call registry state ms c tool_call rest t output w :
  heap w !! state = Some ms →
  llm_call ms = inr (AIMessage c (tool_call :: rest)) →
  registry !! tc_name tool_call = Some t →
  (tool_invoke t (tc_args tool_call)).2 = inr output →
  (invoke_tool registry state (invoke llm_call state w).2).1 = inr state ∧
  heap (invoke_tool registry state (invoke llm_call state w).2).2 !! state =
    Some (ms ++ [AIMessage c (tool_call :: rest);
                 ToolMessage (tc_id tool_call) (str_value output)]).
Proof.
  intros H Hllm Hreg Hout.
  rewrite (invoke_run _ _ _ _ H), Hllm. simpl.
  erewrite invoke_tool_dispatch;
    [|simpl; apply lookup_insert_eq|apply last_snoc|reflexivity].
  rewrite (_call_tool_found _ _ _ _ _ _ Hreg), Hout. simpl.
  split; [reflexivity|]. rewrite lookup_insert_eq.
  by rewrite <- app_assoc.
Qed.

Lemma invoke_then_invoke_tool_witness :
  heap seed_world !! 0 = Some seed ∧
  calling_llm seed = inr (AIMessage "" (calculator_call :: [unknown_call])) ∧
  tool_registry !! tc_name calculator_call = Some calculator_tool ∧
  (tool_invoke calculator_tool (tc_args calculator_call)).2 =
    inr (VStr "2+2") ∧
  (invoke_tool tool_registry 0 (invoke calling_llm 0 seed_world).2).1 =
    inr 0 ∧
  heap (invoke_tool tool_registry 0 (invoke calling_llm 0 seed_world).2).2
    !! 0 =
    Some (seed ++ [AIMessage "" (calculator_call :: [unknown_call]);
                   ToolMessage (tc_id calculator_call)
                     (str_value (VStr "2+2"))]).
Proof.
  do 4 (split; [reflexivity|]).
  apply (invoke_then_invoke_tool calling_llm tool_registry 0 seed ""
           calculator_call [unknown_call] calculator_tool (VStr "2+2")
           seed_world); reflexivity.
Defined.

(** X7: after a model call that failed, [invoke_tool] on the same
    dictionary dispatches nothing: the diagnostic message carries no tool
    call, so no tool runs, the dictionary keeps the diagnostic as its
    last message and a new dictionary is returned. *)
Theorem failed_call_dispatches_nothing llm_call registry state ms e w :
  heap w !! state = Some ms →
  llm_call ms = inl e →
  tool_events
    (trace (invoke_tool registry state (invoke llm_call state w).2).2) =
    tool_events (trace w) ∧
  heap (invoke_tool registry state (invoke llm_call state w).2).2 !! state =
    Some (ms ++ [AIMessage (str_exc e) []]) ∧
  ∃ d, (invoke_tool registry state (invoke llm_call state w).2).1 = inr d ∧
       d ≠ state.
Proof.
  intros H Hllm.
  rewrite (invoke_run _ _ _ _ H), Hllm. simpl.
  set (w1 := mkWorld _ _ _).
  assert (H1 : heap w1 !! state = Some (ms ++ [AIMessage (str_exc e) []]))
    by apply lookup_insert_eq.
  assert (Hne : fresh (dom (heap w1)) ≠ state)
    by (by eapply fresh_not_allocated).
  rewrite (invoke_tool_skip _ _ _ _ _ H1 (last_snoc _ _))
    by (right; reflexivity).
  simpl. split; [|split].
  - rewrite !tool_events_app. simpl. by rewrite !app_nil_r.
  - rewrite lookup_insert_ne by done. exact H1.
  - eauto.
Qed.

Lemma failed_call_dispatches_nothing_witness :
  heap seed_world !! 0 = Some seed ∧
  failing_llm seed =
    inl (mkExc (OtherError "APIConnectionError") "Connection error.") ∧
  tool_events
    (trace (invoke_tool tool_registry 0
              (invoke failing_llm 0 seed_world).2).2) =
    tool_events (trace seed_world) ∧
  heap (invoke_tool tool_registry 0 (invoke failing_llm 0 seed_world).2).2
    !! 0 =
    Some (seed ++
          [AIMessage
             (str_exc (mkExc (OtherError "APIConnectionError")
                         "Connection error.")) []]) ∧
  ∃ d, (invoke_tool tool_registry 0 (invoke failing_llm 0 seed_world).2).1 =
         inr d ∧
       d ≠ 0.
Proof.
  split; [reflexivity|]. split; [reflexivity|].
  apply (failed_call_dispatches_nothing failing_llm tool_registry 0 seed
           (mkExc (OtherError "APIConnectionError") "Connection error.")
           seed_world); reflexivity.
Defined.

(** X8: two calls of [invoke] on the same dictionary accumulate: the
    second call sends the model the messages with the first answer at
    the end, and the dictionary ends with both answers in order. *)
Theorem invoke_twice llm_call state ms w :
  heap w !! state = Some ms →
  let a1 := appended (llm_call ms) in
  let a2 := appended (llm_call (ms ++ [a1])) in
  heap (invoke llm_call state (invoke llm_call state w).2).2 !! state =
    Some (ms ++ [a1; a2]) ∧
  model_events (trace (invoke llm_call state (invoke llm_call state w).2).2) =
    model_events (trace w) ++ [ms; ms ++ [a1]].
Proof.
  intros H a1 a2.
  rewrite (invoke_run _ _ _ _ H). fold a1. simpl.
  erewrite invoke_run by (simpl; apply lookup_insert_eq). simpl.
  fold a2. split.
  - rewrite lookup_insert_eq. by rewrite <- app_assoc.
  - rewrite !model_events_app.
    destruct (invoke_trace_events ms (llm_call ms)) as [-> _].
    destruct (invoke_trace_events (ms ++ [a1]) (llm_call (ms ++ [a1])))
      as [-> _].
    by rewrite <- app_assoc.
Qed.

Lemma invoke_twice_witness :
  heap seed_world !! 0 = Some seed ∧
  let a1 := appended (stub_llm seed) in
  let a2 := appended (stub_llm (seed ++ [a1])) in
  heap (invoke stub_llm 0 (invoke stub_llm 0 seed_world).2).2 !! 0 =
    Some (seed ++ [a1; a2]) ∧
  model_events (trace (invoke stub_llm 0 (invoke stub_llm 0 seed_world).2).2) =
    model_events (trace seed_world) ++ [seed; seed ++ [a1]].
Proof.
  split; [reflexivity|].
  apply (invoke_twice stub_llm 0 seed seed_world). reflexivity.
Defined.

(* ================================================================= *)
(** * Further properties of a run *)

Lemma graph_invoke_trace llm_call inputs ms ask rest w :
  heap w !! inputs = Some ms →
  stdin w = ask :: rest →
  let sent :=
    [SystemMessage WORLD_LIBRARIAN_PROMPT; appended (llm_call ms);
     HumanMessage ask] in
  trace (graph_invoke llm_call inputs w).2 =
    trace w ++ generator_trace ms (llm_call ms) ++
    librarian_trace ask sent (llm_call sent).
Proof.
  intros H Hin sent. unfold graph_invoke, graph_invoke_with, bind.
  rewrite (getitem_Some _ _ _ H).
  unfold recursion_limit. cbn [router_loop]. unfold bind.
  rewrite router_step_agent. cbn [fst snd].
  set (w1 := mkWorld _ _ _).
  destruct (router_step_librarian llm_call
              (_get_channel GraphState_messages)
              [SystemMessage WORLD_LIBRARIAN_PROMPT; appended (llm_call ms)]
              ask rest w1 Hin) as (w' & Hrun & _ & _ & Htr).
  simpl in Hrun |- *. rewrite Hrun. simpl. rewrite Htr. simpl.
  by rewrite <- app_assoc.
Qed.

(** X9: with an input line available a run never raises, whatever the
    model does and however many messages it is seeded with: it reads
    exactly one line and returns a conversation of exactly two messages,
    the librarian prompt as a System message and the message [invoke]
    appended for the generator's model call. *)
Theorem run_returns_two_messages llm_call inputs ms ask rest w :
  heap w !! inputs = Some ms →
  stdin w = ask :: rest →
  (graph_invoke llm_call inputs w).1 =
    inr [SystemMessage WORLD_LIBRARIAN_PROMPT; appended (llm_call ms)] ∧
  stdin (graph_invoke llm_call inputs w).2 = rest.
Proof.
  intros H Hin.
  destruct (graph_invoke_with_run llm_call
              (_get_channel GraphState_messages) inputs ms ask rest w H Hin)
    as (w' & Hrun & _ & Hs).
  unfold graph_invoke. rewrite Hrun. by split.
Qed.

Lemma run_returns_two_messages_witness :
  heap two_dict_world !! 1 = Some seed3 ∧
  stdin two_dict_world = "line" :: [] ∧
  (graph_invoke failing_llm 1 two_dict_world).1 =
    inr [SystemMessage WORLD_LIBRARIAN_PROMPT;
         appended (failing_llm seed3)] ∧
  stdin (graph_invoke failing_llm 1 two_dict_world).2 = [].
Proof.
  split; [reflexivity|]. split; [reflexivity|].
  apply (run_returns_two_messages failing_llm 1 seed3 "line" []
           two_dict_world); reflexivity.
Defined.

(** X10: without a line to read a run raises the librarian's [EOFError]:
    the failure of the input source is not turned into a message; by
    then the generator has made its model call. *)
Theorem run_without_input llm_call inputs ms w :
  heap w !! inputs = Some ms →
  stdin w = [] →
  (graph_invoke llm_call inputs w).1 =
    inl (mkExc EOFError "EOF when reading a line") ∧
  model_events (trace (graph_invoke llm_call inputs w).2) =
    model_events (trace w) ++ [ms].
Proof.
  intros H Hin. unfold graph_invoke, graph_invoke_with, bind.
  rewrite (getitem_Some _ _ _ H).
  unfold recursion_limit. cbn [router_loop]. unfold bind.
  rewrite router_step_agent. cbn [fst snd].
  unfold router_step, bind. rewrite new_dict_fresh. cbn [node_fn].
  rewrite librarian_eof by exact Hin. simpl.
  split; [reflexivity|]. rewrite model_events_app.
  by destruct (generator_trace_events ms (llm_call ms)) as [-> _].
Qed.

Lemma run_without_input_witness :
  heap (tool_world []) !! 0 = Some (seed ++ [AIMessage "" []]) ∧
  stdin (tool_world []) = [] ∧
  (graph_invoke stub_llm 0 (tool_world [])).1 =
    inl (mkExc EOFError "EOF when reading a line") ∧
  model_events (trace (graph_invoke stub_llm 0 (tool_world [])).2) =
    model_events (trace (tool_world [])) ++ [seed ++ [AIMessage "" []]].
Proof.
  split; [reflexivity|]. split; [reflexivity|].
  apply (run_without_input stub_llm 0 (seed ++ [AIMessage "" []])
           (tool_world [])); reflexivity.
Defined.

(** X11: a run calls the model exactly twice and runs no tool, even when
    the model's answers request tool calls: first with the seeded
    messages, then with the librarian prompt, the generator's message and
    the input line as a Human message; the seeded messages are not part
    of what the librarian sends. *)
Theorem run_model_calls llm_call inputs ms ask rest w :
  heap w !! inputs = Some ms →
  stdin w = ask :: rest →
  model_events (trace (graph_invoke llm_call inputs w).2) =
    model_events (trace w) ++
    [ms;
     [SystemMessage WORLD_LIBRARIAN_PROMPT; appended (llm_call ms);
      HumanMessage ask]] ∧
  tool_events (trace (graph_invoke llm_call inputs w).2) =
    tool_events (trace w).
Proof.
  intros H Hin. rewrite (graph_invoke_trace _ _ _ _ _ _ H Hin).
  rewrite !model_events_app, !tool_events_app.
  destruct (generator_trace_events ms (llm_call ms)) as [-> ->].
  match goal with
  | |- context [librarian_trace ?a ?s ?o] =>
      destruct (librarian_trace_events a s o) as [-> ->]
  end.
  split; [reflexivity|]. by rewrite !app_nil_r.
Qed.

Lemma run_model_calls_witness :
  heap seed_world !! 0 = Some seed ∧
  stdin seed_world = "What is the population?" :: [] ∧
  model_events (trace (graph_invoke calling_llm 0 seed_world).2) =
    model_events (trace seed_world) ++
    [seed;
     [SystemMessage WORLD_LIBRARIAN_PROMPT; appended (calling_llm seed);
      HumanMessage "What is the population?"]] ∧
  tool_events (trace (graph_invoke calling_llm 0 seed_world).2) =
    tool_events (trace seed_world).
Proof.
  split; [reflexivity|]. split; [reflexivity|].
  apply (run_model_calls calling_llm 0 seed "What is the population?" []
           seed_world); reflexivity.
Defined.

(** X12: in the registry of [agent.py] only the name calculator is
    bound: a dispatch under any other name raises the not-found
    [NameError] and changes nothing. *)
Theorem only_calculator_registered name args call_id w :
  name ≠ "calculator" →
  tool_registry !! name = None ∧
  _call_tool tool_registry name args call_id w =
    (inl (mkExc NameError ("⚠️ Tool " +:+ name +:+ " not found in registry")),
     w).
Proof.
  intros Hne.
  assert (Hreg : tool_registry !! name = None).
  { unfold tool_registry, tools. simpl.
    rewrite lookup_insert_ne by done. apply lookup_empty. }
  split; [exact Hreg|]. by apply _call_tool_missing.
Qed.

Lemma only_calculator_registered_witness :
  "Calculator" ≠ "calculator" ∧
  tool_registry !! "Calculator" = None ∧
  _call_tool tool_registry "Calculator" ∅ "c3" seed_world =
    (inl (mkExc NameError
            ("⚠️ Tool " +:+ "Calculator" +:+ " not found in registry")),
     seed_world).
Proof.
  assert (Hne : "Calculator" ≠ "calculator") by discriminate.
  split; [exact Hne|].
  apply (only_calculator_registered "Calculator" ∅ "c3" seed_world Hne).
Defined.
